(** * UpdateNotification: the update widget's lifecycle, verified

    A shallow embedding of [src/components/UpdateNotification.tsx].

    The component is a React function component.  Its [useState] cells and
    its [useRef] latch become the fields of a record; everything the
    component does to the outside world (the command bridge, the parent's
    [onClose], the toast sink, the console, the relaunch primitive) is
    appended to an effect log; [setTimeout] appends to a timer queue that
    the event [EElapse] drains.  The [async] routine [checkAndDownload] is
    split at its single [await]: the part before it issues the call, the
    part after it is resumed by the promise settling.

    Assumptions about code that is not part of the component:
    - [isTauri] and the translation function [t] are parameters ([Env]);
    - [onClose], [showToast], [console.warn], [console.error] and
      [setTimeout] return normally (they are recorded, never raise);
    - the bridge answers with a well-typed [UpdateInfo] or rejects;
    - the parent's reaction to [onClose] (unmounting) is not modelled: the
      log only records that the callback has been invoked;
    - an event of an execution ([step]) is dispatched on the tree rendered
      from the current hooks: a click needs its button to be in that tree.
      The handlers themselves have no such guard, and statements about
      them outside executions apply them directly. *)

From Stdlib Require Import ZArith List String Bool Lia Arith Permutation.
Import ListNotations.
Local Open Scope Z_scope.
Local Open Scope string_scope.

(** ** Data model *)

(** [interface UpdateInfo] *)
Record UpdateInfo : Type := mkUpdateInfo {
  has_update : bool;
  latest_version : string;
  current_version : string;
  download_url : string;
  source : option string
}.

(** [type UpdateState = "checking" | "downloading" | "ready" | "error" | "none"] *)
Inductive UpdateState : Type :=
| checking | downloading | ready | error | none.

Definition UpdateState_eqb (a b : UpdateState) : bool :=
  match a, b with
  | checking, checking | downloading, downloading | ready, ready
  | error, error | none, none => true
  | _, _ => false
  end.

(** A value caught by [catch (error)]: either an [Error] object, of which
    the code reads [.message], or anything else, of which it takes
    [String(error)]. *)
Inductive Thrown : Type :=
| ErrorObj (message : string)
| NonError (asString : string).

(** [error instanceof Error ? error.message : String(error)] *)
Definition errorMsg_of (e : Thrown) : string :=
  match e with
  | ErrorObj m => m
  | NonError s => s
  end.

Inductive ToastKind : Type := info | error_kind.

(** What the component does to its surroundings, in order. *)
Inductive Effect : Type :=
| Invoke (cmd : string)                      (* invoke<UpdateInfo>(cmd) *)
| OnClose                                    (* the parent's onClose() *)
| ConsoleWarn (msg : string)
| ConsoleError (label : string) (arg : string)
| ShowToast (msg : string) (kind : ToastKind)
| Relaunch                                   (* tauriRelaunch() *)
| Unhandled (e : Thrown).                    (* exception escaping a handler *)

(** The two callbacks the component hands to [setTimeout]. *)
Inductive Callback : Type :=
| CbSetIsVisible (b : bool)                  (* () => setIsVisible(b) *)
| CbOnClose.                                 (* onClose *)

Record Timer : Type := mkTimer { due : Z; callback : Callback }.

(** The component instance: hooks first, then the host runtime around it. *)
Record Widget : Type := mkWidget {
  updateInfo : option UpdateInfo;            (* useState(null) *)
  isVisible : bool;                          (* useState(false) *)
  isClosing : bool;                          (* useState(false) *)
  updateState : UpdateState;                 (* useState("checking") *)
  downloadProgress : Z;                      (* useState(0) *)
  downloadStarted : bool;                    (* useRef(false) *)
  now : Z;                                   (* clock, in ms *)
  timers : list Timer;                       (* pending setTimeout calls *)
  pendingChecks : nat;                       (* unsettled invoke promises *)
  log : list Effect
}.

(** The collaborators imported from other modules. *)
Record Env : Type := mkEnv {
  isTauri : bool;                            (* isTauri() *)
  t : string -> string                       (* useTranslation().t *)
}.

(** ** A state monad with exceptions

    A JavaScript exception leaves the mutations made before it in place,
    so a computation always returns the widget, with a value or with the
    thrown one. *)

Inductive Completion (A : Type) : Type :=
| Normal (a : A)
| Throw (e : Thrown).
Arguments Normal {A} a.
Arguments Throw {A} e.

Definition M (A : Type) : Type := Widget -> Widget * Completion A.

Definition ret {A} (a : A) : M A := fun w => (w, Normal a).

Definition bind {A B} (m : M A) (k : A -> M B) : M B :=
  fun w =>
    match m w with
    | (w', Normal a) => k a w'
    | (w', Throw e) => (w', Throw e)
    end.

Definition throw {A} (e : Thrown) : M A := fun w => (w, Throw e).

(** [try { body } catch (error) { handler }] *)
Definition try_catch {A} (body : M A) (handler : Thrown -> M A) : M A :=
  fun w =>
    match body w with
    | (w', Normal a) => (w', Normal a)
    | (w', Throw e) => handler e w'
    end.

Definition modify (f : Widget -> Widget) : M unit := fun w => (f w, Normal tt).

Declare Scope widget_scope.
Delimit Scope widget_scope with widget.
Notation "c1 ;; c2" := (bind c1 (fun _ => c2))
  (at level 61, right associativity) : widget_scope.
Local Open Scope widget_scope.

(** ** Hook setters and host primitives *)

Definition setUpdateInfo (i : option UpdateInfo) : M unit :=
  modify (fun w => mkWidget i (isVisible w) (isClosing w) (updateState w)
    (downloadProgress w) (downloadStarted w) (now w) (timers w) (pendingChecks w) (log w)).

Definition setIsVisible (b : bool) : M unit :=
  modify (fun w => mkWidget (updateInfo w) b (isClosing w) (updateState w)
    (downloadProgress w) (downloadStarted w) (now w) (timers w) (pendingChecks w) (log w)).

Definition setIsClosing (b : bool) : M unit :=
  modify (fun w => mkWidget (updateInfo w) (isVisible w) b (updateState w)
    (downloadProgress w) (downloadStarted w) (now w) (timers w) (pendingChecks w) (log w)).

Definition setUpdateState (s : UpdateState) : M unit :=
  modify (fun w => mkWidget (updateInfo w) (isVisible w) (isClosing w) s
    (downloadProgress w) (downloadStarted w) (now w) (timers w) (pendingChecks w) (log w)).

Definition setDownloadProgress (p : Z) : M unit :=
  modify (fun w => mkWidget (updateInfo w) (isVisible w) (isClosing w) (updateState w)
    p (downloadStarted w) (now w) (timers w) (pendingChecks w) (log w)).

(** [downloadStarted.current = b] *)
Definition setDownloadStarted (b : bool) : M unit :=
  modify (fun w => mkWidget (updateInfo w) (isVisible w) (isClosing w) (updateState w)
    (downloadProgress w) b (now w) (timers w) (pendingChecks w) (log w)).

Definition set_now (n : Z) (w : Widget) : Widget :=
  mkWidget (updateInfo w) (isVisible w) (isClosing w) (updateState w)
    (downloadProgress w) (downloadStarted w) n (timers w) (pendingChecks w) (log w).

Definition set_timers (l : list Timer) (w : Widget) : Widget :=
  mkWidget (updateInfo w) (isVisible w) (isClosing w) (updateState w)
    (downloadProgress w) (downloadStarted w) (now w) l (pendingChecks w) (log w).

Definition set_pendingChecks (n : nat) (w : Widget) : Widget :=
  mkWidget (updateInfo w) (isVisible w) (isClosing w) (updateState w)
    (downloadProgress w) (downloadStarted w) (now w) (timers w) n (log w).

Definition emit (e : Effect) : M unit :=
  modify (fun w => mkWidget (updateInfo w) (isVisible w) (isClosing w) (updateState w)
    (downloadProgress w) (downloadStarted w) (now w) (timers w) (pendingChecks w)
    (log w ++ [e])).

(** [setTimeout(cb, delay)]: queued behind the timers already pending. *)
Definition setTimeout (cb : Callback) (delay : Z) : M unit :=
  modify (fun w => set_timers (timers w ++ [mkTimer (now w + delay) cb]) w).

Definition onClose : M unit := emit OnClose.
Definition showToast (msg : string) (k : ToastKind) : M unit := emit (ShowToast msg k).
Definition console_warn (msg : string) : M unit := emit (ConsoleWarn msg).
Definition console_error (label arg : string) : M unit := emit (ConsoleError label arg).

(** [a || b] on strings: only the empty string is falsy. *)
Definition js_or (a b : string) : string :=
  match a with
  | EmptyString => b
  | _ => a
  end.

(** [const update = null; // updater removed by user request] *)
Inductive Update : Type := mkUpdate.

Notation "x <- c1 ;; c2" := (bind c1 (fun x => c2))
  (at level 61, c1 at next level, right associativity) : widget_scope.

(** Reading a hook or the ref. *)
Definition read {A} (f : Widget -> A) : M A := fun w => (w, Normal (f w)).

(** ** The component's routines *)

(** How an awaited promise settles. *)
Inductive Settled (A : Type) : Type :=
| Fulfilled (a : A)
| Rejected (e : Thrown).
Arguments Fulfilled {A} a.
Arguments Rejected {A} e.

(** [await p], once [p] has settled. *)
Definition await {A} (p : Settled A) : M A :=
  match p with
  | Fulfilled a => ret a
  | Rejected e => throw e
  end.

(** [handleClose] *)
Definition handleClose : M unit :=
  setIsClosing true ;;
  setIsVisible false ;;
  setTimeout CbOnClose 400.

(** [checkAndDownload], up to its [await]: the call to the bridge is made
    and the routine is suspended. *)
Definition checkAndDownload_start : M unit :=
  emit (Invoke "check_for_updates") ;;
  modify (fun w => set_pendingChecks (S (pendingChecks w)) w).

(** [checkAndDownload], from its [await] on, given how the call settled. *)
Definition checkAndDownload_resume (env : Env) (p : Settled UpdateInfo) : M unit :=
  try_catch
    ((* 1. Check for updates via backend *)
     i <- await p ;;
     if negb (has_update i) then
       onClose
     else
       setUpdateInfo (Some i) ;;
       (* 2. If not in Tauri - no auto-update possible *)
       if negb (isTauri env) then
         console_warn "Auto update is only available in Tauri environment" ;;
         onClose
       else
         (* 3. Start background download immediately *)
         started <- read downloadStarted ;;
         if started then ret tt
         else
           setDownloadStarted true ;;
           setUpdateState downloading ;;
           setTimeout (CbSetIsVisible true) 100 ;;
           let update : option Update := None in
           match update with
           | None =>
               console_warn "Native updater disabled or returned null" ;;
               showToast
                 (js_or (t env "update_notification.toast.not_ready")
                        "Auto-update is disabled")
                 info ;;
               handleClose
           | Some _ =>
               (* 4. Download complete - show restart prompt *)
               setUpdateState ready ;;
               setDownloadProgress 100
           end)
    (fun err =>
       let errorMsg := errorMsg_of err in
       console_error "Auto update failed:" errorMsg ;;
       setUpdateState error ;;
       showToast (t env "update_notification.toast.failed" ++ ": " ++ errorMsg)
                 error_kind).

(** [handleRestart]; [r] is how [tauriRelaunch()] settles.  The console
    receives the caught value itself, recorded here by its text. *)
Definition handleRestart (r : Settled unit) : M unit :=
  try_catch
    (emit Relaunch ;; await r)
    (fun err => console_error "Relaunch failed:" (errorMsg_of err)).

(** The retry button's [onClick]. *)
Definition retry_onClick : M unit :=
  setDownloadStarted false ;;
  setUpdateState checking ;;
  setDownloadProgress 0 ;;
  checkAndDownload_start.

(** ** Rendering *)

Inductive Icon : Type := CheckCircle | Sparkles.

(** What the returned element tree depends on. *)
Record View : Type := mkView {
  v_shown : bool;             (* the visible classes are selected *)
  v_icon : Icon;
  v_title : string;
  v_version : option string;  (* v{updateInfo.latest_version} *)
  v_closeButton : bool;       (* the X button *)
  v_status : string;          (* the status paragraph *)
  v_progress : option Z;      (* the progress bar and its percentage *)
  v_restartButton : bool;
  v_laterButton : bool;
  v_retryButton : bool
}.

(** [cond && text] inside JSX *)
Definition jsx_and (c : bool) (s : string) : string := if c then s else "".

(** The component's return value: [null] or the element tree. *)
Definition render (env : Env) (w : Widget) : option View :=
  let st := updateState w in
  if UpdateState_eqb st none then None
  else Some {|
    v_shown := isVisible w && negb (isClosing w);
    v_icon := if UpdateState_eqb st ready then CheckCircle else Sparkles;
    v_title := if UpdateState_eqb st ready
               then t env "update_notification.ready"
               else t env "update_notification.title";
    v_version := option_map (fun i => "v" ++ latest_version i) (updateInfo w);
    v_closeButton := UpdateState_eqb st error || UpdateState_eqb st ready;
    v_status :=
      jsx_and (UpdateState_eqb st downloading) (t env "update_notification.downloading")
      ++ jsx_and (UpdateState_eqb st ready) (t env "update_notification.restart_prompt")
      ++ jsx_and (UpdateState_eqb st error) (t env "update_notification.toast.failed");
    v_progress := if UpdateState_eqb st downloading
                  then Some (downloadProgress w) else None;
    v_restartButton := UpdateState_eqb st ready;
    v_laterButton := UpdateState_eqb st ready;
    v_retryButton := UpdateState_eqb st error
  |}.

Definition shows (sel : View -> bool) (env : Env) (w : Widget) : bool :=
  match render env w with
  | Some v => sel v
  | None => false
  end.

(** ** The host: timers, events, executions *)

Definition run_callback (cb : Callback) : M unit :=
  match cb with
  | CbSetIsVisible b => setIsVisible b
  | CbOnClose => onClose
  end.

(** A handler run by the host; an exception that escapes it is recorded. *)
Definition run_handler (m : M unit) (w : Widget) : Widget :=
  match m w with
  | (w', Normal _) => w'
  | (w', Throw e) => fst (emit (Unhandled e) w')
  end.

(** Timers fire in the order of their due times, and in the order they
    were set when these are equal. *)
Fixpoint insert_timer (x : Timer) (l : list Timer) : list Timer :=
  match l with
  | [] => [x]
  | y :: l' => if (due x <=? due y)%Z then x :: y :: l' else y :: insert_timer x l'
  end.

Fixpoint sort_timers (l : list Timer) : list Timer :=
  match l with
  | [] => []
  | x :: l' => insert_timer x (sort_timers l')
  end.

Definition is_due (at_ : Z) (tm : Timer) : bool := (due tm <=? at_)%Z.

Definition fire (l : list Timer) (w : Widget) : Widget :=
  fold_left (fun w tm => run_handler (run_callback (callback tm)) w) l w.

(** [dt] milliseconds pass: the clock advances and every timer that has
    come due runs.  No callback of this component sets a timer. *)
Definition elapse (dt : Z) (w : Widget) : Widget :=
  let at_ := now w + dt in
  let (ripe, rest) := partition (is_due at_) (timers w) in
  fire (sort_timers ripe) (set_timers rest (set_now at_ w)).

Inductive Event : Type :=
| ECheckSettled (p : Settled UpdateInfo)   (* the bridge answers *)
| EClickClose                              (* the X or the later button *)
| EClickRetry
| EClickRestart (r : Settled unit)
| EElapse (dt : Z).

(** One event.  A click needs its button to be in the rendered tree, an
    answer needs a call that is waiting for it. *)
Definition step (env : Env) (w : Widget) (ev : Event) : option Widget :=
  match ev with
  | ECheckSettled p =>
      match pendingChecks w with
      | O => None
      | S n => Some (run_handler (checkAndDownload_resume env p) (set_pendingChecks n w))
      end
  | EClickClose =>
      if shows v_closeButton env w || shows v_laterButton env w
      then Some (run_handler handleClose w) else None
  | EClickRetry =>
      if shows v_retryButton env w
      then Some (run_handler retry_onClick w) else None
  | EClickRestart r =>
      if shows v_restartButton env w
      then Some (run_handler (handleRestart r) w) else None
  | EElapse dt =>
      if (0 <=? dt)%Z then Some (elapse dt w) else None
  end.

Fixpoint run_from (env : Env) (w : Widget) (evs : list Event) : option Widget :=
  match evs with
  | [] => Some w
  | ev :: evs' =>
      match step env w ev with
      | Some w' => run_from env w' evs'
      | None => None
      end
  end.

(** The hooks' initial values. *)
Definition initial : Widget :=
  mkWidget None false false checking 0 false 0 [] O [].

(** The first render followed by [useEffect(() => { checkAndDownload(); }, [])]. *)
Definition mount : Widget := run_handler checkAndDownload_start initial.

Definition run (env : Env) (evs : list Event) : option Widget :=
  run_from env mount evs.

Definition reachable (env : Env) (w : Widget) : Prop :=
  exists evs, run env evs = Some w.

(** ** Observations on the log and the timer queue *)

Definition is_OnClose (e : Effect) : bool :=
  match e with OnClose => true | _ => false end.

Definition is_Invoke (e : Effect) : bool :=
  match e with Invoke _ => true | _ => false end.

Definition is_ShowToast (e : Effect) : bool :=
  match e with ShowToast _ _ => true | _ => false end.

Definition is_Relaunch (e : Effect) : bool :=
  match e with Relaunch => true | _ => false end.

Definition is_Unhandled (e : Effect) : bool :=
  match e with Unhandled _ => true | _ => false end.

Definition count (p : Effect -> bool) (l : list Effect) : nat :=
  List.length (filter p l).

Definition closes_onClose (tm : Timer) : bool :=
  match callback tm with CbOnClose => true | _ => false end.

(** [onClose] calls waiting on a timer. *)
Definition scheduled_closes (w : Widget) : nat :=
  List.length (filter closes_onClose (timers w)).

Definition onClose_calls (w : Widget) : nat := count is_OnClose (log w).

(** [sub] occurs in [s]. *)
Definition contains (sub s : string) : Prop :=
  exists pre post, s = pre ++ sub ++ post.

Definition sets_visible (tm : Timer) : bool :=
  match callback tm with CbSetIsVisible _ => true | _ => false end.

Definition is_info_toast (e : Effect) : bool :=
  match e with ShowToast _ info => true | _ => false end.

(** Events of an execution that make the component call or schedule
    [onClose]: answers of the bridge that are not failures, and clicks on
    a close button. *)
Definition is_fulfilled (ev : Event) : bool :=
  match ev with ECheckSettled (Fulfilled _) => true | _ => false end.

Definition is_close_click (ev : Event) : bool :=
  match ev with EClickClose => true | _ => false end.

Definition fulfilled_checks (evs : list Event) : nat :=
  List.length (filter is_fulfilled evs).

Definition close_clicks (evs : list Event) : nat :=
  List.length (filter is_close_click evs).

(** The timers that come due within [dt]. *)
Definition ripe (dt : Z) (w : Widget) : list Timer :=
  filter (is_due (now w + dt)) (timers w).

(** The texts the routines use. *)
Definition not_ready_text (env : Env) : string :=
  js_or (t env "update_notification.toast.not_ready") "Auto-update is disabled".

Definition failed_text (env : Env) (msg : string) : string :=
  t env "update_notification.toast.failed" ++ ": " ++ msg.

(** What holds of every widget an execution can reach. *)
Record Inv (w : Widget) : Prop := mkInv {
  inv_pending : (pendingChecks w <= 1)%nat;
  inv_waiting :
    pendingChecks w = 1%nat ->
    updateState w = checking /\ downloadStarted w = false;
  inv_state :
    updateState w = checking \/ updateState w = downloading \/ updateState w = error;
  inv_progress : downloadProgress w = 0;
  inv_relaunch : count is_Relaunch (log w) = 0%nat;
  inv_unhandled : count is_Unhandled (log w) = 0%nat;
  inv_quiet :
    updateState w <> downloading ->
    isVisible w = false /\
    count is_info_toast (log w) = 0%nat /\
    Forall (fun tm => callback tm = CbOnClose) (timers w);
  inv_closing : updateState w = downloading -> isClosing w = true;
  inv_timers :
    Forall (fun tm => due tm <= now w + 400 /\ callback tm <> CbSetIsVisible false)
           (timers w)
}.

(** Sample collaborators and answers, for concrete executions. *)
Definition env_native : Env := mkEnv true (fun key => key).
Definition env_browser : Env := mkEnv false (fun key => key).
Definition info_newer : UpdateInfo :=
  mkUpdateInfo true "4.1.0" "4.0.0" "https://example.org/release" None.

(** Nothing is awaited and no button is on screen: only time can pass. *)
Definition dormant (w : Widget) : Prop :=
  pendingChecks w = 0%nat /\
  (updateState w = checking \/ updateState w = downloading).


Definition is_settled (ev : Event) : bool :=
  match ev with ECheckSettled _ => true | _ => false end.

Definition is_retry_click (ev : Event) : bool :=
  match ev with EClickRetry => true | _ => false end.


Definition events_where (p : Event -> bool) (evs : list Event) : nat :=
  List.length (filter p evs).


(** A widget in the ready state, as step 4 of [checkAndDownload] would
    leave it. *)
Definition ready_widget : Widget :=
  mkWidget (Some info_newer) true false ready 100 true 100 [] 0
    [Invoke "check_for_updates"].

(** The two toasts the component can show, neither with an empty text. *)
Definition known_toast (env : Env) (e : Effect) : Prop :=
  match e with
  | ShowToast m k =>
      m <> "" /\
      ((k = info /\ m = not_ready_text env) \/
       (k = error_kind /\ exists msg, m = failed_text env msg))
  | _ => True
  end.

(** * Proofs *)

(** ** Lists, counting *)

Section ListFacts.
Context {A : Type}.
Variable f : A -> bool.

Lemma filter_length_perm (l1 l2 : list A) :
  Permutation l1 l2 ->
  List.length (filter f l1) = List.length (filter f l2).
Proof.
  induction 1 as [| x l l' _ IH | x y l | l l' l'' _ IH1 _ IH2]; simpl.
  - reflexivity.
  - destruct (f x); simpl; congruence.
  - destruct (f x), (f y); reflexivity.
  - congruence.
Qed.

Lemma existsb_perm (l1 l2 : list A) :
  Permutation l1 l2 -> existsb f l1 = existsb f l2.
Proof.
  induction 1 as [| x l l' _ IH | x y l | l l' l'' _ IH1 _ IH2]; simpl.
  - reflexivity.
  - now rewrite IH.
  - destruct (f x), (f y); reflexivity.
  - congruence.
Qed.



Lemma Forall_filter_keep (P : A -> Prop) (l : list A) :
  Forall P l -> Forall P (filter f l).
Proof.
  induction 1 as [| x l Hx _ IH]; simpl; [constructor |].
  destruct (f x); [constructor |]; assumption.
Qed.
End ListFacts.

Lemma count_app p (l1 l2 : list Effect) :
  count p (l1 ++ l2)%list = (count p l1 + count p l2)%nat.
Proof. unfold count. now rewrite filter_app, length_app. Qed.

Lemma count_repeat_OnClose p n :
  count p (repeat OnClose n) = if p OnClose then n else 0%nat.
Proof.
  unfold count. induction n as [| n IH]; simpl.
  - now destruct (p OnClose).
  - destruct (p OnClose); simpl; congruence.
Qed.

(** ** The timer queue *)

Lemma insert_timer_perm x l : Permutation (insert_timer x l) (x :: l).
Proof.
  induction l as [| y l IH]; simpl.
  - apply Permutation_refl.
  - destruct (due x <=? due y)%Z.
    + apply Permutation_refl.
    + eapply perm_trans; [apply perm_skip, IH | apply perm_swap].
Qed.

Lemma sort_timers_perm l : Permutation (sort_timers l) l.
Proof.
  induction l as [| x l IH]; simpl.
  - constructor.
  - eapply perm_trans; [apply insert_timer_perm | now apply perm_skip].
Qed.

(** Running one callback, field by field. *)
Lemma run_callback_eq cb w :
  run_handler (run_callback cb) w =
  match cb with
  | CbSetIsVisible b => fst (setIsVisible b w)
  | CbOnClose => fst (onClose w)
  end.
Proof. destruct cb; reflexivity. Qed.

Lemma fire_cons tm l w :
  fire (tm :: l) w = fire l (run_handler (run_callback (callback tm)) w).
Proof. reflexivity. Qed.

(** Firing timers touches only [isVisible] and the log. *)
Lemma fire_frame l : forall w,
  updateInfo (fire l w) = updateInfo w /\
  isClosing (fire l w) = isClosing w /\
  updateState (fire l w) = updateState w /\
  downloadProgress (fire l w) = downloadProgress w /\
  downloadStarted (fire l w) = downloadStarted w /\
  now (fire l w) = now w /\
  timers (fire l w) = timers w /\
  pendingChecks (fire l w) = pendingChecks w.
Proof.
  induction l as [| tm l IH]; intros w.
  - repeat split.
  - rewrite fire_cons, run_callback_eq.
    destruct (IH (match callback tm with
                  | CbSetIsVisible b => fst (setIsVisible b w)
                  | CbOnClose => fst (onClose w)
                  end)) as (H1 & H2 & H3 & H4 & H5 & H6 & H7 & H8).
    rewrite H1, H2, H3, H4, H5, H6, H7, H8.
    destruct (callback tm); repeat split.
Qed.

(** Each ripe [onClose] timer adds one call to the log, and nothing else
    is logged. *)
Lemma fire_log l : forall w,
  log (fire l w)
  = (log w ++ repeat OnClose (List.length (filter closes_onClose l)))%list.
Proof.
  induction l as [| tm l IH]; intros w.
  - simpl. now rewrite app_nil_r.
  - rewrite fire_cons, IH, run_callback_eq. unfold closes_onClose at 2. simpl.
    destruct (callback tm); simpl.
    + reflexivity.
    + now rewrite <- app_assoc.
Qed.

Lemma fire_isVisible l : forall w,
  Forall (fun tm => callback tm <> CbSetIsVisible false) l ->
  isVisible (fire l w) = isVisible w || existsb sets_visible l.
Proof.
  induction l as [| tm l IH]; intros w Hl.
  - simpl. now rewrite orb_false_r.
  - inversion Hl as [| ? ? Htm Hl']; subst.
    rewrite fire_cons, (IH _ Hl'), run_callback_eq.
    unfold sets_visible at 2. simpl.
    destruct (callback tm) as [[|] |]; simpl.
    + now rewrite orb_true_r.
    + congruence.
    + reflexivity.
Qed.

(** ** Time passing *)

Lemma elapse_eq dt w :
  elapse dt w =
  fire (sort_timers (filter (is_due (now w + dt)) (timers w)))
       (set_timers (filter (fun tm => negb (is_due (now w + dt) tm)) (timers w))
                   (set_now (now w + dt) w)).
Proof. unfold elapse. now rewrite partition_as_filter. Qed.

Lemma elapse_frame dt w :
  updateInfo (elapse dt w) = updateInfo w /\
  isClosing (elapse dt w) = isClosing w /\
  updateState (elapse dt w) = updateState w /\
  downloadProgress (elapse dt w) = downloadProgress w /\
  downloadStarted (elapse dt w) = downloadStarted w /\
  pendingChecks (elapse dt w) = pendingChecks w.
Proof.
  rewrite elapse_eq.
  match goal with |- context [fire ?l ?w0] =>
    destruct (fire_frame l w0) as (H1 & H2 & H3 & H4 & H5 & _ & _ & H8)
  end.
  rewrite H1, H2, H3, H4, H5, H8. repeat split.
Qed.

Lemma elapse_now dt w : now (elapse dt w) = now w + dt.
Proof.
  rewrite elapse_eq.
  match goal with |- context [fire ?l ?w0] =>
    destruct (fire_frame l w0) as (_ & _ & _ & _ & _ & H6 & _ & _)
  end.
  now rewrite H6.
Qed.

Lemma elapse_timers dt w :
  timers (elapse dt w)
  = filter (fun tm => negb (is_due (now w + dt) tm)) (timers w).
Proof.
  rewrite elapse_eq.
  match goal with |- context [fire ?l ?w0] =>
    destruct (fire_frame l w0) as (_ & _ & _ & _ & _ & _ & H7 & _)
  end.
  now rewrite H7.
Qed.

Lemma elapse_log dt w :
  log (elapse dt w)
  = (log w ++ repeat OnClose (List.length (filter closes_onClose (ripe dt w))))%list.
Proof.
  rewrite elapse_eq, fire_log. simpl.
  now rewrite (filter_length_perm closes_onClose _ _ (sort_timers_perm _)).
Qed.

Lemma elapse_onClose_calls dt w :
  onClose_calls (elapse dt w)
  = (onClose_calls w + List.length (filter closes_onClose (ripe dt w)))%nat.
Proof.
  unfold onClose_calls. now rewrite elapse_log, count_app, count_repeat_OnClose.
Qed.

Lemma elapse_count_other p dt w :
  p OnClose = false -> count p (log (elapse dt w)) = count p (log w).
Proof.
  intros Hp. rewrite elapse_log, count_app, count_repeat_OnClose, Hp. lia.
Qed.


Lemma elapse_isVisible dt w :
  Forall (fun tm => callback tm <> CbSetIsVisible false) (timers w) ->
  isVisible (elapse dt w) = isVisible w || existsb sets_visible (ripe dt w).
Proof.
  intros H. rewrite elapse_eq, fire_isVisible.
  - simpl. now rewrite (existsb_perm sets_visible _ _ (sort_timers_perm _)).
  - eapply Permutation_Forall; [apply Permutation_sym, sort_timers_perm |].
    now apply Forall_filter_keep.
Qed.

(** ** What each event does *)

Ltac run_routine :=
  cbv beta iota delta
    [step shows render run_handler checkAndDownload_resume retry_onClick
     checkAndDownload_start handleClose handleRestart try_catch bind await
     ret throw read onClose showToast console_warn console_error setTimeout
     emit setUpdateInfo setIsVisible setIsClosing setUpdateState
     setDownloadProgress setDownloadStarted modify set_timers
     set_pendingChecks set_now fst snd negb
     updateInfo isVisible isClosing updateState downloadProgress
     downloadStarted now timers pendingChecks log not_ready_text].

Lemma step_no_update env w i n :
  pendingChecks w = S n -> has_update i = false ->
  step env w (ECheckSettled (Fulfilled i)) =
  Some (mkWidget (updateInfo w) (isVisible w) (isClosing w) (updateState w)
          (downloadProgress w) (downloadStarted w) (now w) (timers w) n
          (log w ++ [OnClose])).
Proof.
  destruct w; simpl; intros -> Hi. run_routine. now rewrite Hi.
Qed.

Lemma step_not_tauri env w i n :
  pendingChecks w = S n -> has_update i = true -> isTauri env = false ->
  step env w (ECheckSettled (Fulfilled i)) =
  Some (mkWidget (Some i) (isVisible w) (isClosing w) (updateState w)
          (downloadProgress w) (downloadStarted w) (now w) (timers w) n
          ((log w
            ++ [ConsoleWarn "Auto update is only available in Tauri environment"])
            ++ [OnClose])).
Proof.
  destruct w; simpl; intros -> Hi He. run_routine. now rewrite Hi, He.
Qed.

Lemma step_download env w i n :
  pendingChecks w = S n -> has_update i = true -> isTauri env = true ->
  downloadStarted w = false ->
  step env w (ECheckSettled (Fulfilled i)) =
  Some (mkWidget (Some i) false true downloading
          (downloadProgress w) true (now w)
          ((timers w ++ [mkTimer (now w + 100) (CbSetIsVisible true)])
             ++ [mkTimer (now w + 400) CbOnClose]) n
          ((log w ++ [ConsoleWarn "Native updater disabled or returned null"])
             ++ [ShowToast (not_ready_text env) info])).
Proof.
  destruct w; simpl; intros -> Hi He ->. run_routine. now rewrite Hi, He.
Qed.

Lemma step_latched env w i n :
  pendingChecks w = S n -> has_update i = true -> isTauri env = true ->
  downloadStarted w = true ->
  step env w (ECheckSettled (Fulfilled i)) =
  Some (mkWidget (Some i) (isVisible w) (isClosing w) (updateState w)
          (downloadProgress w) (downloadStarted w) (now w) (timers w) n (log w)).
Proof.
  destruct w; simpl; intros -> Hi He ->. run_routine. now rewrite Hi, He.
Qed.

Lemma step_rejected env w e n :
  pendingChecks w = S n ->
  step env w (ECheckSettled (Rejected e)) =
  Some (mkWidget (updateInfo w) (isVisible w) (isClosing w) error
          (downloadProgress w) (downloadStarted w) (now w) (timers w) n
          ((log w ++ [ConsoleError "Auto update failed:" (errorMsg_of e)])
             ++ [ShowToast (failed_text env (errorMsg_of e)) error_kind])).
Proof.
  destruct w; simpl; intros ->. run_routine. reflexivity.
Qed.

Lemma step_settled_pending env w p w' :
  step env w (ECheckSettled p) = Some w' -> exists n, pendingChecks w = S n.
Proof.
  unfold step. destruct (pendingChecks w) as [| n]; [discriminate |].
  intros _. now exists n.
Qed.

Lemma close_button_iff env w :
  shows v_closeButton env w || shows v_laterButton env w = true
  <-> updateState w = error \/ updateState w = ready.
Proof.
  unfold shows, render.
  destruct (updateState w); simpl; split; intros H; try discriminate;
    try reflexivity; auto; destruct H; discriminate.
Qed.

Lemma retry_button_iff env w :
  shows v_retryButton env w = true <-> updateState w = error.
Proof.
  unfold shows, render.
  destruct (updateState w); simpl; split; intros H; try discriminate;
    reflexivity.
Qed.

Lemma restart_button_iff env w :
  shows v_restartButton env w = true <-> updateState w = ready.
Proof.
  unfold shows, render.
  destruct (updateState w); simpl; split; intros H; try discriminate;
    reflexivity.
Qed.

Lemma step_close env w w' :
  step env w EClickClose = Some w' ->
  (updateState w = error \/ updateState w = ready) /\
  w' = mkWidget (updateInfo w) false true (updateState w)
         (downloadProgress w) (downloadStarted w) (now w)
         (timers w ++ [mkTimer (now w + 400) CbOnClose]) (pendingChecks w)
         (log w).
Proof.
  unfold step.
  destruct (shows v_closeButton env w || shows v_laterButton env w) eqn:E;
    [| discriminate].
  intros H. split; [now apply (close_button_iff env) |].
  injection H as <-. reflexivity.
Qed.

Lemma step_retry env w w' :
  step env w EClickRetry = Some w' ->
  updateState w = error /\
  w' = mkWidget (updateInfo w) (isVisible w) (isClosing w) checking 0 false
         (now w) (timers w) (S (pendingChecks w))
         (log w ++ [Invoke "check_for_updates"]).
Proof.
  unfold step. destruct (shows v_retryButton env w) eqn:E; [| discriminate].
  intros H. split; [now apply (retry_button_iff env) |].
  injection H as <-. reflexivity.
Qed.

Lemma step_restart env w r w' :
  step env w (EClickRestart r) = Some w' -> updateState w = ready.
Proof.
  unfold step. destruct (shows v_restartButton env w) eqn:E; [| discriminate].
  intros _. now apply (restart_button_iff env).
Qed.

Lemma step_elapse env w dt w' :
  step env w (EElapse dt) = Some w' -> 0 <= dt /\ w' = elapse dt w.
Proof.
  unfold step. destruct (0 <=? dt)%Z eqn:E; [| discriminate].
  intros H. injection H as <-. split; [lia | reflexivity].
Qed.

(** ** The invariant *)

Lemma count_snoc p l e :
  count p (l ++ [e])%list = (count p l + if p e then 1 else 0)%nat.
Proof. rewrite count_app. unfold count. simpl. now destruct (p e). Qed.

Lemma only_closes_not_visible g l :
  Forall (fun tm => callback tm = CbOnClose) l ->
  existsb sets_visible (filter g l) = false.
Proof.
  induction 1 as [| tm l Htm _ IH]; simpl; [reflexivity |].
  destruct (g tm); simpl; [| assumption].
  unfold sets_visible at 1. now rewrite Htm.
Qed.

Lemma Inv_mount : Inv mount.
Proof.
  constructor; simpl; try reflexivity; try lia; auto; try discriminate.
Qed.

Ltac inv_fields :=
  simpl in *; rewrite ?count_snoc; simpl;
  try solve [ assumption | reflexivity | lia | discriminate | congruence
            | tauto | intuition (try discriminate; try congruence; try lia) ].

Lemma Inv_step env w ev w' : Inv w -> step env w ev = Some w' -> Inv w'.
Proof.
  intros [Hp Hw Hs Hg Hr Hu Hq Hcl Ht] Hstep.
  destruct ev as [p | | | r | dt].
  - (* the bridge answers *)
    destruct (step_settled_pending env w p w' Hstep) as [n Hn].
    assert (n = 0%nat) by lia; subst n.
    destruct (Hw Hn) as [Hc Hl].
    assert (Hnd : updateState w <> downloading) by (rewrite Hc; discriminate).
    destruct (Hq Hnd) as (Hv & Hi & Hcb).
    destruct p as [i | e].
    + destruct (has_update i) eqn:Hi'; [destruct (isTauri env) eqn:He |].
      * rewrite (step_download env w i 0 Hn Hi' He Hl) in Hstep.
        injection Hstep as <-.
        constructor; inv_fields.
        rewrite !Forall_app. repeat split; try assumption;
          repeat constructor; simpl; try lia; discriminate.
      * rewrite (step_not_tauri env w i 0 Hn Hi' He) in Hstep.
        injection Hstep as <-.
        constructor; inv_fields.
      * rewrite (step_no_update env w i 0 Hn Hi') in Hstep.
        injection Hstep as <-.
        constructor; inv_fields.
    + rewrite (step_rejected env w e 0 Hn) in Hstep.
      injection Hstep as <-.
      constructor; inv_fields.
  - (* close *)
    apply step_close in Hstep. destruct Hstep as [Hst ->].
    assert (Hnd : updateState w <> downloading)
      by (destruct Hst as [H | H]; rewrite H; discriminate).
    destruct (Hq Hnd) as (Hv & Hi & Hcb).
    constructor; inv_fields.
    + intros _. repeat split; try assumption.
      rewrite Forall_app. split; [assumption | repeat constructor].
    + rewrite Forall_app. split; [assumption |].
      repeat constructor; simpl; try lia; discriminate.
  - (* retry *)
    apply step_retry in Hstep. destruct Hstep as [Hst ->].
    assert (Hnd : updateState w <> downloading) by (rewrite Hst; discriminate).
    destruct (Hq Hnd) as (Hv & Hi & Hcb).
    assert (Hp0 : pendingChecks w = 0%nat).
    { destruct (Nat.eq_dec (pendingChecks w) 1) as [E | E]; [| lia].
      destruct (Hw E) as [Hc _]. rewrite Hst in Hc. discriminate. }
    constructor; inv_fields.
  - (* restart *)
    apply step_restart in Hstep.
    destruct Hs as [H | [H | H]]; rewrite H in Hstep; discriminate.
  - (* time passes *)
    apply step_elapse in Hstep. destruct Hstep as [Hdt ->].
    destruct (elapse_frame dt w) as (F1 & F2 & F3 & F4 & F5 & F6).
    constructor; rewrite ?F2, ?F3, ?F4, ?F5, ?F6, ?elapse_now, ?elapse_timers;
      try assumption.
    + now rewrite elapse_count_other.
    + now rewrite elapse_count_other.
    + intros Hnd. destruct (Hq Hnd) as (Hv & Hi & Hcb).
      repeat split.
      * rewrite elapse_isVisible.
        -- rewrite Hv. simpl. now apply only_closes_not_visible.
        -- eapply Forall_impl; [| exact Ht]. simpl. tauto.
      * now rewrite elapse_count_other.
      * now apply Forall_filter_keep.
    + apply Forall_filter_keep.
      eapply Forall_impl; [| exact Ht]. simpl. intros tm [H1 H2].
      split; [lia | assumption].
Qed.

Lemma Inv_run_from env evs : forall w w',
  Inv w -> run_from env w evs = Some w' -> Inv w'.
Proof.
  induction evs as [| ev evs IH]; simpl; intros w w' HI Hrun.
  - now injection Hrun as <-.
  - destruct (step env w ev) as [w1 |] eqn:E; [| discriminate].
    eapply IH; [eapply Inv_step; eassumption | exact Hrun].
Qed.

Lemma Inv_reachable env w : reachable env w -> Inv w.
Proof.
  intros [evs Hrun]. eapply Inv_run_from; [apply Inv_mount | exact Hrun].
Qed.

(** An answer can only come to a widget that awaits one call, in the
    state [checking], with the latch down. *)
Lemma awaiting_one env w p w' :
  Inv w -> step env w (ECheckSettled p) = Some w' ->
  pendingChecks w = 1%nat /\ updateState w = checking /\ downloadStarted w = false.
Proof.
  intros HI Hstep.
  destruct (step_settled_pending env w p w' Hstep) as [n Hn].
  pose proof (inv_pending w HI) as Hp.
  assert (H1 : pendingChecks w = 1%nat) by lia.
  destruct (inv_waiting w HI H1). auto.
Qed.


(** ** Timers set by a handler *)

Lemma is_due_after w dt delay cb :
  is_due (now w + dt) (mkTimer (now w + delay) cb) = (delay <=? dt)%Z.
Proof.
  unfold is_due. simpl.
  destruct (Z.leb_spec (now w + delay) (now w + dt)),
           (Z.leb_spec delay dt); try reflexivity; lia.
Qed.

Lemma ripe_extra dt w w' extra :
  now w' = now w -> timers w' = (timers w ++ extra)%list ->
  ripe dt w' = (ripe dt w ++ filter (is_due (now w + dt)) extra)%list.
Proof. intros Hn Ht. unfold ripe. now rewrite Hn, Ht, filter_app. Qed.

Lemma elapse_extra_closes dt w w' extra :
  now w' = now w -> timers w' = (timers w ++ extra)%list ->
  onClose_calls w' = onClose_calls w ->
  onClose_calls (elapse dt w')
  = (onClose_calls (elapse dt w)
     + List.length (filter closes_onClose (filter (is_due (now w + dt)) extra)))%nat.
Proof.
  intros Hn Ht Hc.
  rewrite !elapse_onClose_calls, (ripe_extra dt w w' extra Hn Ht), Hc.
  rewrite filter_app, length_app. lia.
Qed.

(** ** The claims *)

(** C8.  The close action, offered in the error and ready states, sets
    [isClosing] and clears [isVisible] at once and calls nothing at that
    moment: the log is unchanged and one timer is added.  After [dt] ms
    the number of [onClose] calls exceeds what it would have been without
    the click by one when [400 <= dt], and by none before. *)
Theorem close_calls_onClose_after_delay env w :
  updateState w = error \/ updateState w = ready ->
  exists w',
    step env w EClickClose = Some w' /\
    isClosing w' = true /\
    isVisible w' = false /\
    log w' = log w /\
    timers w' = (timers w ++ [mkTimer (now w + 400) CbOnClose])%list /\
    forall dt, 0 <= dt ->
      onClose_calls (elapse dt w')
      = (onClose_calls (elapse dt w) + if (400 <=? dt)%Z then 1 else 0)%nat.
Proof.
  intros Hst.
  destruct (step env w EClickClose) as [w' |] eqn:E.
  - destruct (step_close env w w' E) as [_ ->]. eexists. split; [reflexivity |].
    simpl. repeat split.
    intros dt Hdt.
    rewrite (elapse_extra_closes dt w _ [mkTimer (now w + 400) CbOnClose]);
      try reflexivity.
    simpl. rewrite is_due_after. now destruct (400 <=? dt)%Z.
  - unfold step in E. apply (close_button_iff env) in Hst.
    rewrite Hst in E. discriminate.
Qed.

Lemma close_calls_onClose_after_delay_witness :
  exists w w',
    run env_native [ECheckSettled (Rejected (ErrorObj "offline"))] = Some w /\
    step env_native w EClickClose = Some w' /\
    isClosing w' = true /\ isVisible w' = false /\
    onClose_calls w' = 0%nat /\
    onClose_calls (elapse 399 w') = 0%nat /\
    onClose_calls (elapse 400 w') = 1%nat.
Proof.
  eexists.
  destruct (close_calls_onClose_after_delay env_native
    (mkWidget None false false error 0 false 0 [] 0
       [Invoke "check_for_updates";
        ConsoleError "Auto update failed:" "offline";
        ShowToast "update_notification.toast.failed: offline" error_kind])
    (or_introl eq_refl)) as (w' & Hs & Hc & Hv & Hl & Ht & Hd).
  exists w'. split; [reflexivity |]. split; [exact Hs |].
  split; [exact Hc |]. split; [exact Hv |].
  split; [unfold onClose_calls; rewrite Hl; reflexivity |].
  split.
  - rewrite (Hd 399); [reflexivity | lia].
  - rewrite (Hd 400); [reflexivity | lia].
Defined.


(** ** Counting the calls to the parent *)




(** ** Rendering and the state [none] *)





(** ** Failure of the check *)

Lemma checkAndDownload_resume_returns env p w :
  snd (checkAndDownload_resume env p w) = Normal tt.
Proof.
  destruct w as [ui v c st pr ds nw ts pc lg].
  destruct p as [i | e]; run_routine; [| reflexivity].
  destruct (has_update i); [| reflexivity].
  destruct (isTauri env); [| reflexivity].
  destruct ds; reflexivity.
Qed.

(** C4.  A check is awaited and the call throws [e]: an [Error] whose
    message is [M], or another value whose text is [M].  The state becomes
    [error]; the routine logs [M] to the console and shows one toast, of
    the error kind, whose text is the translated failure label, a colon
    and [M]; the routine returns normally however the call settles, and no
    escaped exception is recorded. *)
Theorem check_failure_is_caught env w e M :
  pendingChecks w <> 0%nat -> e = ErrorObj M \/ e = NonError M ->
  exists w',
    step env w (ECheckSettled (Rejected e)) = Some w' /\
    updateState w' = error /\
    log w' =
      (log w ++ [ConsoleError "Auto update failed:" M;
                 ShowToast (t env "update_notification.toast.failed" ++ ": " ++ M)
                           error_kind])%list /\
    count is_ShowToast (log w') = S (count is_ShowToast (log w)) /\
    contains M (t env "update_notification.toast.failed" ++ ": " ++ M) /\
    (forall p w0, snd (checkAndDownload_resume env p w0) = Normal tt) /\
    count is_Unhandled (log w') = count is_Unhandled (log w).
Proof.
  intros Hp He. destruct (pendingChecks w) as [| n] eqn:Hn; [congruence |].
  eexists. split; [apply (step_rejected env w e n Hn) |].
  assert (HM : errorMsg_of e = M) by (destruct He as [-> | ->]; reflexivity).
  simpl. rewrite HM. unfold failed_text.
  split; [reflexivity |].
  split; [now rewrite <- app_assoc |].
  split; [rewrite !count_snoc; simpl; lia |].
  split.
  - exists (t env "update_notification.toast.failed" ++ ": "), "".
    assert (Hnil : forall s : string, s ++ "" = s)
      by (induction s as [| c s IH]; simpl; congruence).
    assert (Hassoc : forall a b c : string, (a ++ b) ++ c = a ++ (b ++ c))
      by (induction a as [| x a IH]; simpl; intros; [| rewrite IH]; reflexivity).
    now rewrite Hnil, Hassoc.
  - split; [apply checkAndDownload_resume_returns |].
    rewrite !count_snoc. simpl. lia.
Qed.

Lemma check_failure_is_caught_witness :
  exists w',
    step env_native mount (ECheckSettled (Rejected (ErrorObj "offline"))) = Some w' /\
    updateState w' = error /\
    log w' = [Invoke "check_for_updates";
              ConsoleError "Auto update failed:" "offline";
              ShowToast "update_notification.toast.failed: offline" error_kind] /\
    count is_ShowToast (log w') = 1%nat.
Proof.
  destruct (check_failure_is_caught env_native mount (ErrorObj "offline") "offline")
    as (w' & Hs & Hst & Hl & Hc & _); [discriminate | now left |].
  exists w'. split; [exact Hs |]. split; [exact Hst |].
  split; [exact Hl | exact Hc].
Defined.

(** ** Executions that only wait *)

Lemma run_from_cons env w ev evs w' :
  run_from env w (ev :: evs) = Some w' ->
  exists w1, step env w ev = Some w1 /\ run_from env w1 evs = Some w'.
Proof.
  simpl. destruct (step env w ev) as [w1 |]; [| discriminate].
  intros H. now exists w1.
Qed.

Lemma dormant_step env w ev w' :
  dormant w -> step env w ev = Some w' ->
  dormant w' /\ exists dt, 0 <= dt /\ ev = EElapse dt /\ w' = elapse dt w.
Proof.
  intros [Hp Hc] Hstep.
  destruct ev as [p | | | r | dt].
  - simpl in Hstep. rewrite Hp in Hstep. discriminate.
  - apply step_close in Hstep.
    destruct Hstep as [[H | H] _], Hc as [Hc | Hc]; rewrite Hc in H; discriminate.
  - apply step_retry in Hstep. destruct Hstep as [H _].
    destruct Hc as [Hc | Hc]; rewrite Hc in H; discriminate.
  - apply step_restart in Hstep.
    destruct Hc as [Hc | Hc]; rewrite Hc in Hstep; discriminate.
  - apply step_elapse in Hstep. destruct Hstep as [Hdt ->].
    destruct (elapse_frame dt w) as (_ & _ & F3 & _ & _ & F6).
    split.
    + split; [congruence | rewrite F3; exact Hc].
    + exists dt. auto.
Qed.

Lemma dormant_run_from env evs : forall w w',
  dormant w -> run_from env w evs = Some w' ->
  dormant w' /\
  updateState w' = updateState w /\
  fulfilled_checks evs = 0%nat /\
  close_clicks evs = 0%nat /\
  forall p, p OnClose = false -> count p (log w') = count p (log w).
Proof.
  unfold fulfilled_checks, close_clicks.
  induction evs as [| ev evs IH]; simpl; intros w w' Hd Hrun.
  - injection Hrun as <-. split; [exact Hd | repeat split].
  - destruct (step env w ev) as [w1 |] eqn:E; [| discriminate].
    destruct (dormant_step env w ev w1 Hd E) as (Hd1 & dt & _ & -> & ->).
    destruct (IH _ _ Hd1 Hrun) as (Hd' & Hst & Hf & Hc & Hcount).
    destruct (elapse_frame dt w) as (_ & _ & F3 & _).
    simpl. split; [exact Hd' |]. split; [congruence |].
    split; [exact Hf |]. split; [exact Hc |].
    intros p Hp. now rewrite (Hcount p Hp), elapse_count_other.
Qed.





(** C6.  The bridge reports an update to an awaited check outside the
    native environment.  The routine logs the console warning, then calls
    [onClose]; it sets no timer and shows no toast.  Whatever happens
    afterwards the state is still [checking] (never [downloading], never
    [error]) and no toast has been added. *)
Theorem browser_update_closes_with_warning env w i evs w' :
  reachable env w -> has_update i = true -> isTauri env = false ->
  run_from env w (ECheckSettled (Fulfilled i) :: evs) = Some w' ->
  (exists w1,
     step env w (ECheckSettled (Fulfilled i)) = Some w1 /\
     log w1 =
       (log w ++ [ConsoleWarn "Auto update is only available in Tauri environment";
                  OnClose])%list /\
     timers w1 = timers w /\ updateState w1 = checking) /\
  updateState w = checking /\
  updateState w' = checking /\
  count is_ShowToast (log w') = count is_ShowToast (log w).
Proof.
  intros Hr Hi He Hrun.
  pose proof (Inv_reachable env w Hr) as HI.
  destruct (run_from_cons env w _ evs w' Hrun) as (w1 & Hstep & Hrest).
  destruct (awaiting_one env w _ w1 HI Hstep) as (Hn & Hc & _).
  pose proof Hstep as Hstep'.
  rewrite (step_not_tauri env w i 0 Hn Hi He) in Hstep'.
  injection Hstep' as Hw1.
  assert (Hd1 : dormant w1) by (subst w1; split; [reflexivity | now left]).
  destruct (dormant_run_from env evs w1 w' Hd1 Hrest) as (_ & Hc' & _ & _ & Hcount).
  replace (updateState w1) with checking in Hc' by (subst w1; simpl; congruence).
  split.
  - exists w1. split; [exact Hstep |]. subst w1. simpl.
    rewrite <- app_assoc. repeat split; assumption.
  - split; [exact Hc |]. split; [exact Hc' |].
    rewrite (Hcount is_ShowToast eq_refl). subst w1. simpl.
    rewrite !count_snoc. simpl. lia.
Qed.

Lemma browser_update_closes_with_warning_witness :
  exists w',
    run env_browser [ECheckSettled (Fulfilled info_newer); EElapse 500] = Some w' /\
    updateState w' = checking /\
    count is_ShowToast (log w') = 0%nat.
Proof.
  eexists. split; [vm_compute; reflexivity |].
  destruct (browser_update_closes_with_warning env_browser mount info_newer
              [EElapse 500] _ (ex_intro _ [] eq_refl) eq_refl eq_refl eq_refl)
    as (_ & _ & Hc & Ht).
  split; [exact Hc | exact Ht].
Defined.



(** ** Retry *)

(** C7.  In the error state the retry action is available; it clears the
    latch, sets the progress to 0 and the state to [checking], and calls
    the bridge again: one more [check_for_updates] is logged and awaited,
    and its answer resumes [checkAndDownload] from its first step. *)
Theorem retry_restarts_check env w :
  updateState w = error ->
  exists w',
    step env w EClickRetry = Some w' /\
    downloadStarted w' = false /\
    downloadProgress w' = 0 /\
    updateState w' = checking /\
    log w' = (log w ++ [Invoke "check_for_updates"])%list /\
    count is_Invoke (log w') = S (count is_Invoke (log w)) /\
    pendingChecks w' = S (pendingChecks w) /\
    forall p,
      step env w' (ECheckSettled p)
      = Some (run_handler (checkAndDownload_resume env p)
                (set_pendingChecks (pendingChecks w) w')).
Proof.
  intros Hst.
  destruct (step env w EClickRetry) as [w' |] eqn:E.
  - destruct (step_retry env w w' E) as [_ ->]. eexists.
    split; [reflexivity |]. simpl.
    repeat split. rewrite count_snoc. simpl. lia.
  - unfold step in E. apply (retry_button_iff env) in Hst.
    rewrite Hst in E. discriminate.
Qed.

Lemma retry_restarts_check_witness :
  exists w w',
    run env_native [ECheckSettled (Rejected (ErrorObj "offline"))] = Some w /\
    step env_native w EClickRetry = Some w' /\
    updateState w' = checking /\
    downloadProgress w' = 0 /\
    downloadStarted w' = false /\
    count is_Invoke (log w') = 2%nat.
Proof.
  eexists.
  destruct (retry_restarts_check env_native
    (mkWidget None false false error 0 false 0 [] 0
       [Invoke "check_for_updates";
        ConsoleError "Auto update failed:" "offline";
        ShowToast "update_notification.toast.failed: offline" error_kind])
    eq_refl) as (w' & Hs & Hl & Hp & Hst & _ & Hc & _).
  exists w'. split; [reflexivity |]. split; [exact Hs |].
  split; [exact Hst |]. split; [exact Hp |]. split; [exact Hl | exact Hc].
Defined.

(** ** What never happens *)

(** C9.  In every execution the state is never [ready], the progress is
    never 100, the restart button is never in the rendered tree and the
    relaunch primitive has never been called. *)
Theorem ready_is_unreachable env w :
  reachable env w ->
  updateState w <> ready /\
  downloadProgress w <> 100 /\
  shows v_restartButton env w = false /\
  count is_Relaunch (log w) = 0%nat.
Proof.
  intros Hr. pose proof (Inv_reachable env w Hr) as HI.
  assert (Hnr : updateState w <> ready)
    by (destruct (inv_state w HI) as [H | [H | H]]; rewrite H; discriminate).
  split; [exact Hnr |].
  split; [rewrite (inv_progress w HI); discriminate |].
  split; [| exact (inv_relaunch w HI)].
  destruct (shows v_restartButton env w) eqn:E; [| reflexivity].
  apply (restart_button_iff env) in E. contradiction.
Qed.

Lemma ready_is_unreachable_witness :
  exists w,
    run env_native [ECheckSettled (Fulfilled info_newer); EElapse 400] = Some w /\
    updateState w <> ready /\
    downloadProgress w <> 100 /\
    shows v_restartButton env_native w = false /\
    count is_Relaunch (log w) = 0%nat.
Proof.
  eexists. split; [vm_compute; reflexivity |].
  apply (ready_is_unreachable env_native).
  exists [ECheckSettled (Fulfilled info_newer); EElapse 400]. reflexivity.
Defined.

(** C10.  In every execution the progress is a percentage between 0 and
    100, and it is 0 or 100, nothing in between. *)
Theorem downloadProgress_is_0_or_100 env w :
  reachable env w ->
  0 <= downloadProgress w <= 100 /\
  (downloadProgress w = 0 \/ downloadProgress w = 100).
Proof.
  intros Hr. rewrite (inv_progress w (Inv_reachable env w Hr)).
  split; [lia | now left].
Qed.

Lemma downloadProgress_is_0_or_100_witness :
  exists w,
    run env_native [ECheckSettled (Rejected (NonError "timeout")); EClickRetry;
                    ECheckSettled (Fulfilled info_newer); EElapse 100] = Some w /\
    0 <= downloadProgress w <= 100 /\
    (downloadProgress w = 0 \/ downloadProgress w = 100).
Proof.
  eexists. split; [vm_compute; reflexivity |].
  apply (downloadProgress_is_0_or_100 env_native).
  exists [ECheckSettled (Rejected (NonError "timeout")); EClickRetry;
          ECheckSettled (Fulfilled info_newer); EElapse 100].
  vm_compute. reflexivity.
Defined.

(** X2.  The visible classes are selected when [isVisible && !isClosing]; no
    execution gets there: the flag is raised only by the timer that the
    download step sets, and that step starts the closing sequence. *)
Remark visible_classes_never_selected env w :
  reachable env w -> shows v_shown env w = false.
Proof.
  intros Hr. pose proof (Inv_reachable env w Hr) as HI.
  unfold shows, render.
  destruct (updateState w) eqn:Hs; simpl.
  - destruct (inv_quiet w HI) as (Hv & _); [rewrite Hs; discriminate |].
    now rewrite Hv.
  - rewrite (inv_closing w HI Hs). apply andb_false_r.
  - destruct (inv_quiet w HI) as (Hv & _); [rewrite Hs; discriminate |].
    now rewrite Hv.
  - destruct (inv_quiet w HI) as (Hv & _); [rewrite Hs; discriminate |].
    now rewrite Hv.
  - reflexivity.
Qed.

(** ** The parent's close callback *)





(** * Beyond the claims *)

(** ** What one event adds to the log *)

Lemma step_log env w ev w' :
  Inv w -> step env w ev = Some w' ->
  log w' =
  (log w ++
   match ev with
   | ECheckSettled (Fulfilled i) =>
       if has_update i then
         if isTauri env
         then [ConsoleWarn "Native updater disabled or returned null";
               ShowToast (not_ready_text env) info]
         else [ConsoleWarn "Auto update is only available in Tauri environment";
               OnClose]
       else [OnClose]
   | ECheckSettled (Rejected e) =>
       [ConsoleError "Auto update failed:" (errorMsg_of e);
        ShowToast (failed_text env (errorMsg_of e)) error_kind]
   | EClickClose => []
   | EClickRetry => [Invoke "check_for_updates"]
   | EClickRestart _ => []
   | EElapse dt =>
       repeat OnClose (List.length (filter closes_onClose (ripe dt w)))
   end)%list.
Proof.
  intros HI Hstep.
  destruct ev as [p | | | r | dt].
  - destruct (awaiting_one env w p w' HI Hstep) as (Hn & _ & Hl).
    destruct p as [i | e].
    + destruct (has_update i) eqn:Hi; [destruct (isTauri env) eqn:He |].
      * rewrite (step_download env w i 0 Hn Hi He Hl) in Hstep.
        injection Hstep as <-. simpl. now rewrite <- app_assoc.
      * rewrite (step_not_tauri env w i 0 Hn Hi He) in Hstep.
        injection Hstep as <-. simpl. now rewrite <- app_assoc.
      * rewrite (step_no_update env w i 0 Hn Hi) in Hstep.
        now injection Hstep as <-.
    + rewrite (step_rejected env w e 0 Hn) in Hstep.
      injection Hstep as <-. simpl. now rewrite <- app_assoc.
  - apply step_close in Hstep. destruct Hstep as [_ ->]. simpl.
    now rewrite app_nil_r.
  - apply step_retry in Hstep. now destruct Hstep as [_ ->].
  - apply step_restart in Hstep.
    destruct (inv_state w HI) as [H | [H | H]]; rewrite H in Hstep; discriminate.
  - apply step_elapse in Hstep. destruct Hstep as [_ ->]. apply elapse_log.
Qed.

Lemma count_pair p l a b :
  count p (l ++ [a; b])%list
  = (count p l + (if p a then 1 else 0) + (if p b then 1 else 0))%nat.
Proof.
  change [a; b] with ([a] ++ [b])%list. now rewrite app_assoc, !count_snoc.
Qed.

(** What one event adds to the number of logged effects picked by [p],
    for a [p] that does not pick [OnClose]. *)
Lemma count_step p env w ev w' :
  Inv w -> step env w ev = Some w' -> p OnClose = false ->
  count p (log w') =
  (count p (log w) +
   match ev with
   | ECheckSettled (Fulfilled i) =>
       if has_update i then
         if isTauri env
         then (if p (ConsoleWarn "Native updater disabled or returned null")
               then 1 else 0)
              + (if p (ShowToast (not_ready_text env) info) then 1 else 0)
         else (if p (ConsoleWarn
                       "Auto update is only available in Tauri environment")
               then 1 else 0)
       else 0
   | ECheckSettled (Rejected e) =>
       (if p (ConsoleError "Auto update failed:" (errorMsg_of e)) then 1 else 0)
       + (if p (ShowToast (failed_text env (errorMsg_of e)) error_kind)
          then 1 else 0)
   | EClickRetry => if p (Invoke "check_for_updates") then 1 else 0
   | _ => 0
   end)%nat.
Proof.
  intros HI Hstep Hp. rewrite (step_log env w ev w' HI Hstep).
  destruct ev as [[i | e] | | | r | dt].
  - destruct (has_update i); [destruct (isTauri env) |];
      rewrite ?count_pair, ?count_snoc, ?Hp; lia.
  - rewrite count_pair. lia.
  - rewrite app_nil_r. lia.
  - rewrite count_snoc. lia.
  - rewrite app_nil_r. lia.
  - rewrite count_app, count_repeat_OnClose, Hp. lia.
Qed.

(** ** Counting along an execution *)

Lemma indicator_sum (q : Event -> bool) evs :
  list_sum (map (fun ev => if q ev then 1%nat else 0%nat) evs)
  = events_where q evs.
Proof.
  unfold events_where. induction evs as [| ev evs IH]; simpl; [reflexivity |].
  destruct (q ev); simpl; lia.
Qed.

Lemma count_run_from p (q : Event -> bool) env :
  (forall w ev w', Inv w -> step env w ev = Some w' ->
     count p (log w') = (count p (log w) + if q ev then 1 else 0)%nat) ->
  forall evs w w', Inv w -> run_from env w evs = Some w' ->
    count p (log w') = (count p (log w) + events_where q evs)%nat.
Proof.
  intros Hone evs. rewrite <- indicator_sum.
  induction evs as [| ev evs IH]; simpl; intros w w' HI Hrun.
  - injection Hrun as <-. lia.
  - destruct (step env w ev) as [w1 |] eqn:E; [| discriminate].
    rewrite (IH w1 w' (Inv_step env w ev w1 HI E) Hrun), (Hone w ev w1 HI E).
    lia.
Qed.


Lemma pending_run_from env evs : forall w w',
  run_from env w evs = Some w' ->
  (pendingChecks w' + events_where is_settled evs)%nat
  = (pendingChecks w + events_where is_retry_click evs)%nat.
Proof.
  unfold events_where.
  induction evs as [| ev evs IH]; simpl; intros w w' Hrun.
  - injection Hrun as <-. lia.
  - destruct (step env w ev) as [w1 |] eqn:E; [| discriminate].
    pose proof (IH w1 w' Hrun) as H.
    destruct ev as [p | | | r | dt]; simpl.
    + destruct (step_settled_pending env w p w1 E) as [n Hn].
      assert (pendingChecks w1 = n).
      { unfold step in E. rewrite Hn in E. injection E as <-.
        destruct w as [ui v c st pr ds nw ts pc lg]. simpl in Hn. subst pc.
        destruct p as [i | e]; run_routine; [| reflexivity].
        destruct (has_update i); [| reflexivity].
        destruct (isTauri env); [| reflexivity].
        destruct ds; reflexivity. }
      lia.
    + apply step_close in E. destruct E as [_ ->]. simpl in H. lia.
    + apply step_retry in E. destruct E as [_ ->]. simpl in H. lia.
    + unfold step in E. destruct (shows v_restartButton env w); [| discriminate].
      injection E as <-.
      assert (pendingChecks (run_handler (handleRestart r) w) = pendingChecks w).
      { destruct w as [ui v c st pr ds nw ts pc lg].
        destruct r as [[] | e]; reflexivity. }
      lia.
    + apply step_elapse in E. destruct E as [_ ->].
      destruct (elapse_frame dt w) as (_ & _ & _ & _ & _ & F6). lia.
Qed.

(** X6.  In every execution [check_for_updates] has been invoked once
    for the mount and once more for each click on retry, and never
    otherwise; each of these calls has been answered at most once: the
    answers received and the calls still awaited add up to the calls
    made. *)
Theorem check_invoked_once_per_mount_and_retry env evs w :
  run env evs = Some w ->
  count is_Invoke (log w) = S (events_where is_retry_click evs) /\
  (pendingChecks w + events_where is_settled evs)%nat
  = S (events_where is_retry_click evs).
Proof.
  intros Hrun. split.
  - rewrite (count_run_from is_Invoke is_retry_click env) with (w := mount) (evs := evs);
      [reflexivity | | apply Inv_mount | exact Hrun].
    intros w0 ev w1 HI Hstep.
    rewrite (count_step is_Invoke env w0 ev w1 HI Hstep eq_refl).
    destruct ev as [[i | e] | | | r | dt]; simpl; try reflexivity.
    destruct (has_update i), (isTauri env); reflexivity.
  - now rewrite (pending_run_from env evs mount w Hrun).
Qed.

Lemma check_invoked_once_per_mount_and_retry_witness :
  exists w,
    run env_native [ECheckSettled (Rejected (ErrorObj "offline")); EClickRetry;
                    ECheckSettled (Rejected (NonError "timeout")); EClickRetry;
                    EElapse 30] = Some w /\
    count is_Invoke (log w) = 3%nat /\
    pendingChecks w = 1%nat.
Proof.
  eexists. split; [vm_compute; reflexivity |].
  match goal with |- count _ (log ?w) = _ /\ _ =>
    assert (Hrun : run env_native
                     [ECheckSettled (Rejected (ErrorObj "offline")); EClickRetry;
                      ECheckSettled (Rejected (NonError "timeout")); EClickRetry;
                      EElapse 30] = Some w)
      by (vm_compute; reflexivity);
    destruct (check_invoked_once_per_mount_and_retry env_native _ w Hrun)
      as [H1 H2]
  end.
  split; [exact H1 |]. vm_compute in H2. vm_compute. lia.
Defined.



(** ** The parent's close callback, in general *)



(** ** Overlapping checks and the latch *)

Lemma retry_onClick_run w :
  run_handler retry_onClick w =
  mkWidget (updateInfo w) (isVisible w) (isClosing w) checking 0 false
    (now w) (timers w) (S (pendingChecks w))
    (log w ++ [Invoke "check_for_updates"]).
Proof. destruct w as [ui v c st pr ds nw ts pc lg]. reflexivity. Qed.

(** X4.  The retry handler has no guard of its own: run twice before
    the tree is rendered again, on any widget, it makes two calls to the
    bridge and both are awaited.  When both report an update in the native
    environment, the first answer runs the download step and raises the
    latch; the second is stopped at the latch: it stores its [updateInfo]
    and does nothing else, so there is one toast and one closing timer,
    not two. *)
Theorem latch_stops_second_answer env w i1 i2 :
  isTauri env = true -> has_update i1 = true -> has_update i2 = true ->
  exists w0 w1 w2,
    w0 = run_handler retry_onClick (run_handler retry_onClick w) /\
    pendingChecks w0 = S (S (pendingChecks w)) /\
    log w0 = (log w ++ [Invoke "check_for_updates";
                        Invoke "check_for_updates"])%list /\
    step env w0 (ECheckSettled (Fulfilled i1)) = Some w1 /\
    updateState w1 = downloading /\ downloadStarted w1 = true /\
    pendingChecks w1 = S (pendingChecks w) /\
    step env w1 (ECheckSettled (Fulfilled i2)) = Some w2 /\
    updateInfo w2 = Some i2 /\
    log w2 = log w1 /\ timers w2 = timers w1 /\
    updateState w2 = downloading /\
    isVisible w2 = isVisible w1 /\ isClosing w2 = isClosing w1 /\
    pendingChecks w2 = pendingChecks w /\
    count is_ShowToast (log w2) = S (count is_ShowToast (log w)) /\
    scheduled_closes w2 = S (scheduled_closes w).
Proof.
  intros He H1 H2.
  pose proof (step_download env
                (run_handler retry_onClick (run_handler retry_onClick w)) i1
                (S (pendingChecks w))) as Hs1.
  rewrite !retry_onClick_run in *.
  specialize (Hs1 eq_refl H1 He eq_refl).
  match type of Hs1 with step _ ?x _ = Some ?y =>
    set (w0 := x) in *; set (w1 := y) in *
  end.
  pose proof (step_latched env w1 i2 (pendingChecks w) eq_refl H2 He eq_refl)
    as Hs2.
  match type of Hs2 with _ = Some ?z => set (w2 := z) in * end.
  exists w0, w1, w2.
  split; [reflexivity |]. split; [reflexivity |].
  split; [subst w0; simpl; now rewrite <- app_assoc |].
  split; [exact Hs1 |].
  split; [reflexivity |]. split; [reflexivity |]. split; [reflexivity |].
  split; [exact Hs2 |].
  subst w2 w1 w0. unfold scheduled_closes. simpl.
  repeat split.
  - rewrite !count_snoc. simpl. lia.
  - rewrite !filter_app, !length_app. simpl. lia.
Qed.

Lemma latch_stops_second_answer_witness :
  exists w0 w1 w2,
    run env_native [ECheckSettled (Rejected (ErrorObj "offline"))] = Some w0 /\
    step env_native (run_handler retry_onClick (run_handler retry_onClick w0))
         (ECheckSettled (Fulfilled info_newer)) = Some w1 /\
    step env_native w1 (ECheckSettled (Fulfilled info_newer)) = Some w2 /\
    count is_Invoke (log w2) = 3%nat /\
    count is_ShowToast (log w1) = 2%nat /\
    count is_ShowToast (log w2) = 2%nat /\
    scheduled_closes w2 = 1%nat /\
    pendingChecks w2 = 0%nat.
Proof.
  eexists.
  match goal with |- exists w1 w2, run _ ?evs = Some ?w /\ _ =>
    assert (Hrun : run env_native evs = Some w) by (vm_compute; reflexivity)
  end.
  match type of Hrun with _ = Some ?w =>
    destruct (latch_stops_second_answer env_native w info_newer info_newer
                eq_refl eq_refl eq_refl)
      as (w0 & w1 & w2 & -> & _ & _ & Hs1 & _ & _ & _ & Hs2 & _ & Hl & _ & _
          & _ & _ & Hp & Ht & Hc)
  end.
  exists w1, w2. split; [exact Hrun |]. split; [exact Hs1 |].
  split; [exact Hs2 |].
  assert (E1 : w1 = match step env_native
                            (run_handler retry_onClick
                               (run_handler retry_onClick
                                  (mkWidget None false false error 0 false 0 [] 0
                                     [Invoke "check_for_updates";
                                      ConsoleError "Auto update failed:" "offline";
                                      ShowToast
                                        "update_notification.toast.failed: offline"
                                        error_kind])))
                            (ECheckSettled (Fulfilled info_newer))
                    with Some x => x | None => w1 end)
    by (rewrite Hs1; reflexivity).
  vm_compute in E1.
  split; [rewrite Hl, E1; reflexivity |].
  split; [rewrite E1; reflexivity |].
  split; [exact Ht |]. split; [exact Hc | exact Hp].
Defined.

(** ** A check that is never answered *)

Lemma elapse_no_timers dt w :
  timers w = [] -> elapse dt w = set_now (now w + dt) w.
Proof.
  intros Ht. rewrite elapse_eq, Ht. simpl.
  destruct w as [ui v c st pr ds nw ts pc lg]. simpl in Ht. now subst ts.
Qed.

Lemma unanswered_run_from env evs : forall w w',
  w = set_now (now w) mount ->
  run_from env w evs = Some w' ->
  events_where is_settled evs = 0%nat ->
  w' = set_now (now w') mount /\ now w <= now w' /\
  Forall (fun ev => exists dt, ev = EElapse dt) evs.
Proof.
  unfold events_where.
  induction evs as [| ev evs IH]; simpl; intros w w' Hw Hrun Hnone.
  - injection Hrun as <-. split; [exact Hw |]. split; [lia | constructor].
  - destruct (step env w ev) as [w1 |] eqn:E; [| discriminate].
    destruct ev as [p | | | r | dt]; simpl in Hnone.
    + discriminate.
    + apply step_close in E. destruct E as [[H | H] _];
        rewrite Hw in H; discriminate.
    + apply step_retry in E. destruct E as [H _]. rewrite Hw in H. discriminate.
    + apply step_restart in E. rewrite Hw in E. discriminate.
    + apply step_elapse in E. destruct E as [Hdt ->].
      assert (Ht : timers w = []) by (rewrite Hw; reflexivity).
      rewrite (elapse_no_timers dt w Ht) in Hrun.
      assert (Hw1 : set_now (now w + dt) w
                    = set_now (now (set_now (now w + dt) w)) mount)
        by (rewrite Hw; reflexivity).
      destruct (IH _ _ Hw1 Hrun Hnone) as (H1 & H2 & H3).
      split; [exact H1 |].
      split; [simpl in H2; lia |].
      constructor; [now exists dt | exact H3].
Qed.

(** X7.  As long as the bridge has not answered, nothing but time can
    pass: no button is in the tree, so every event of the execution is a
    wait, and the widget is as it was mounted save for the clock: state
    [checking], not visible, one call awaited, [onClose] never called, no
    timer set.  The component has no timeout of its own for the call. *)
Theorem unanswered_check_leaves_widget_as_mounted env evs w :
  run env evs = Some w -> events_where is_settled evs = 0%nat ->
  w = set_now (now w) mount /\
  Forall (fun ev => exists dt, ev = EElapse dt) evs /\
  updateState w = checking /\ isVisible w = false /\
  pendingChecks w = 1%nat /\ onClose_calls w = 0%nat /\ timers w = [] /\
  shows v_closeButton env w = false /\ shows v_retryButton env w = false.
Proof.
  intros Hrun Hnone.
  destruct (unanswered_run_from env evs mount w eq_refl Hrun Hnone)
    as (Hw & _ & Hev).
  split; [exact Hw |]. split; [exact Hev |].
  rewrite Hw. repeat split.
Qed.

Lemma unanswered_check_leaves_widget_as_mounted_witness :
  exists w,
    run env_native [EElapse 1000; EElapse 60000] = Some w /\
    w = set_now 61000 mount /\
    updateState w = checking /\ onClose_calls w = 0%nat.
Proof.
  eexists. split; [vm_compute; reflexivity |].
  match goal with |- ?w = _ /\ _ =>
    assert (Hrun : run env_native [EElapse 1000; EElapse 60000] = Some w)
      by (vm_compute; reflexivity);
    destruct (unanswered_check_leaves_widget_as_mounted env_native _ w Hrun eq_refl)
      as (H1 & _ & H2 & _ & _ & H3 & _)
  end.
  split; [exact H1 |]. split; [exact H2 | exact H3].
Defined.

(** ** The version on display *)





(** ** The relaunch *)

Lemma handleRestart_run r w :
  run_handler (handleRestart r) w =
  mkWidget (updateInfo w) (isVisible w) (isClosing w) (updateState w)
    (downloadProgress w) (downloadStarted w) (now w) (timers w)
    (pendingChecks w)
    (log w ++ Relaunch ::
       match r with
       | Fulfilled _ => []
       | Rejected e => [ConsoleError "Relaunch failed:" (errorMsg_of e)]
       end).
Proof.
  destruct w as [ui v c st pr ds nw ts pc lg].
  destruct r as [[] | e]; run_routine; simpl; try reflexivity.
  now rewrite <- app_assoc.
Qed.

(** X1.  In the ready state the restart button is in the tree, and a
    click calls the relaunch primitive exactly once.  When the relaunch
    fails the failure goes to the console and nowhere else: no hook
    changes (the state stays [ready], no error state), no toast is shown,
    [onClose] is not called, no timer is set, and the handler returns
    normally. *)
Theorem restart_relaunches_and_swallows_failure env w r :
  updateState w = ready ->
  exists w',
    step env w (EClickRestart r) = Some w' /\
    log w' = (log w ++ Relaunch ::
                match r with
                | Fulfilled _ => []
                | Rejected e => [ConsoleError "Relaunch failed:" (errorMsg_of e)]
                end)%list /\
    count is_Relaunch (log w') = S (count is_Relaunch (log w)) /\
    count is_ShowToast (log w') = count is_ShowToast (log w) /\
    onClose_calls w' = onClose_calls w /\
    count is_Unhandled (log w') = count is_Unhandled (log w) /\
    snd (handleRestart r w) = Normal tt /\
    updateState w' = ready /\
    isVisible w' = isVisible w /\ isClosing w' = isClosing w /\
    downloadProgress w' = downloadProgress w /\
    updateInfo w' = updateInfo w /\ timers w' = timers w.
Proof.
  intros Hst.
  assert (Hb : shows v_restartButton env w = true)
    by now apply (restart_button_iff env).
  exists (run_handler (handleRestart r) w).
  split; [unfold step; now rewrite Hb |].
  rewrite handleRestart_run. unfold onClose_calls. simpl.
  split; [reflexivity |].
  assert (Hcount : forall p,
            count p (log w ++ Relaunch ::
                       match r with
                       | Fulfilled _ => []
                       | Rejected e =>
                           [ConsoleError "Relaunch failed:" (errorMsg_of e)]
                       end)%list
            = (count p (log w) + (if p Relaunch then 1 else 0)
               + match r with
                 | Fulfilled _ => 0
                 | Rejected e =>
                     if p (ConsoleError "Relaunch failed:" (errorMsg_of e))
                     then 1 else 0
                 end)%nat).
  { intros p. destruct r as [u | e].
    - rewrite count_snoc. lia.
    - rewrite count_pair. lia. }
  rewrite !Hcount. simpl.
  split; [destruct r; lia |]. split; [destruct r; lia |].
  split; [destruct r; lia |]. split; [destruct r; lia |].
  split.
  - destruct w as [ui v c st pr ds nw ts pc lg].
    destruct r as [[] | e]; reflexivity.
  - repeat split; assumption.
Qed.

Lemma restart_relaunches_and_swallows_failure_witness :
  exists w',
    step env_native ready_widget
      (EClickRestart (Rejected (ErrorObj "permission denied"))) = Some w' /\
    log w' = [Invoke "check_for_updates"; Relaunch;
              ConsoleError "Relaunch failed:" "permission denied"] /\
    updateState w' = ready /\
    count is_ShowToast (log w') = 0%nat.
Proof.
  destruct (restart_relaunches_and_swallows_failure env_native ready_widget
              (Rejected (ErrorObj "permission denied")) eq_refl)
    as (w' & Hs & Hl & _ & Ht & _ & _ & _ & Hst & _).
  exists w'. split; [exact Hs |]. split; [exact Hl |].
  split; [exact Hst | exact Ht].
Defined.

(** ** Closing is final *)

Lemma step_keeps_closing env w ev w' :
  step env w ev = Some w' -> isClosing w = true -> isClosing w' = true.
Proof.
  intros Hstep Hc.
  destruct ev as [p | | | r | dt].
  - destruct (step_settled_pending env w p w' Hstep) as [n Hn].
    unfold step in Hstep. rewrite Hn in Hstep. injection Hstep as <-.
    destruct w as [ui v c st pr ds nw ts pc lg]. simpl in Hc. subst c.
    destruct p as [i | e]; run_routine; [| reflexivity].
    destruct (has_update i); [| reflexivity].
    destruct (isTauri env); [| reflexivity].
    destruct ds; reflexivity.
  - apply step_close in Hstep. now destruct Hstep as [_ ->].
  - apply step_retry in Hstep. now destruct Hstep as [_ ->].
  - unfold step in Hstep.
    destruct (shows v_restartButton env w); [| discriminate].
    injection Hstep as <-. now rewrite handleRestart_run.
  - apply step_elapse in Hstep. destruct Hstep as [_ ->].
    destruct (elapse_frame dt w) as (_ & F2 & _). congruence.
Qed.

(** X9.  Nothing in the component lowers [isClosing]: from any widget
    whose closing sequence has begun, whatever follows (answers, retry,
    more clicks, timers, the entrance timer raising [isVisible]) leaves
    [isClosing] set, so the tree never takes the visible classes again. *)
Theorem closing_is_never_undone env evs : forall w w',
  isClosing w = true -> run_from env w evs = Some w' ->
  isClosing w' = true /\ shows v_shown env w' = false.
Proof.
  induction evs as [| ev evs IH]; simpl; intros w w' Hc Hrun.
  - injection Hrun as <-. split; [exact Hc |].
    unfold shows, render. rewrite Hc.
    destruct (updateState w); simpl; trivial; apply andb_false_r.
  - destruct (step env w ev) as [w1 |] eqn:E; [| discriminate].
    exact (IH w1 w' (step_keeps_closing env w ev w1 E Hc) Hrun).
Qed.

Lemma closing_is_never_undone_witness :
  exists w',
    run_from env_native
      (mkWidget None true true error 0 false 0
         [mkTimer 100 (CbSetIsVisible true); mkTimer 400 CbOnClose] 0 [])
      [EClickRetry; EElapse 150; ECheckSettled (Rejected (ErrorObj "offline"))]
      = Some w' /\
    isVisible w' = true /\ isClosing w' = true /\
    shows v_shown env_native w' = false.
Proof.
  eexists. split; [vm_compute; reflexivity |].
  split; [reflexivity |].
  eapply (closing_is_never_undone env_native
            [EClickRetry; EElapse 150;
             ECheckSettled (Rejected (ErrorObj "offline"))]
            (mkWidget None true true error 0 false 0
               [mkTimer 100 (CbSetIsVisible true); mkTimer 400 CbOnClose] 0 [])).
  - reflexivity.
  - vm_compute. reflexivity.
Defined.

(** ** What executions render *)

Lemma visible_classes_never_selected_witness :
  exists w,
    run env_native [ECheckSettled (Fulfilled info_newer); EElapse 100] = Some w /\
    isVisible w = true /\
    shows v_shown env_native w = false.
Proof.
  eexists. split; [vm_compute; reflexivity |].
  split; [reflexivity |].
  apply (visible_classes_never_selected env_native).
  exists [ECheckSettled (Fulfilled info_newer); EElapse 100].
  vm_compute. reflexivity.
Defined.

(** X10.  In every execution the rendered tree has the sparkles icon and
    the plain title, never the ready ones; the progress bar is in the tree
    exactly in the downloading state and then reads 0: no execution moves
    it. *)
Theorem progress_bar_stays_at_zero env w :
  reachable env w ->
  exists v,
    render env w = Some v /\
    v_icon v = Sparkles /\
    v_title v = t env "update_notification.title" /\
    (updateState w = downloading -> v_progress v = Some 0) /\
    (updateState w <> downloading -> v_progress v = None).
Proof.
  intros Hr. pose proof (Inv_reachable env w Hr) as HI.
  unfold render. rewrite (inv_progress w HI).
  destruct (inv_state w HI) as [H | [H | H]]; rewrite H; simpl;
    eexists; (split; [reflexivity |]); simpl; repeat split;
    intros; congruence.
Qed.

Lemma progress_bar_stays_at_zero_witness :
  exists w v,
    run env_native [ECheckSettled (Fulfilled info_newer); EElapse 250] = Some w /\
    render env_native w = Some v /\
    v_progress v = Some 0 /\ v_icon v = Sparkles.
Proof.
  eexists.
  match goal with |- exists v, run _ ?evs = Some ?w /\ _ =>
    assert (Hrun : run env_native evs = Some w) by (vm_compute; reflexivity)
  end.
  match type of Hrun with run _ ?evs = Some ?w =>
    destruct (progress_bar_stays_at_zero env_native w (ex_intro _ evs Hrun))
      as (v & Hv & Hi & _ & Hp & _)
  end.
  exists v. split; [exact Hrun |]. split; [exact Hv |].
  split; [apply Hp; reflexivity | exact Hi].
Defined.

(** ** What toasts say *)

Lemma js_or_nonempty a b : b <> "" -> js_or a b <> "".
Proof. destruct a; simpl; [trivial | discriminate]. Qed.

Lemma failed_text_nonempty env msg : failed_text env msg <> "".
Proof.
  unfold failed_text.
  destruct (t env "update_notification.toast.failed"); discriminate.
Qed.

Lemma Forall_repeat_OnClose (P : Effect -> Prop) n :
  P OnClose -> Forall P (repeat OnClose n).
Proof. intros H. induction n; simpl; constructor; assumption. Qed.

Lemma known_toasts_run_from env evs : forall w w',
  Inv w -> run_from env w evs = Some w' ->
  Forall (known_toast env) (log w) -> Forall (known_toast env) (log w').
Proof.
  induction evs as [| ev evs IH]; simpl; intros w w' HI Hrun Hlog.
  - now injection Hrun as <-.
  - destruct (step env w ev) as [w1 |] eqn:E; [| discriminate].
    apply (IH w1 w' (Inv_step env w ev w1 HI E) Hrun).
    rewrite (step_log env w ev w1 HI E). apply Forall_app. split; [exact Hlog |].
    destruct ev as [[i | e] | | | r | dt].
    + destruct (has_update i); [destruct (isTauri env) |].
      * constructor; [exact I |]. constructor; [| constructor].
        split; [apply js_or_nonempty; discriminate | left; now split].
      * constructor; [exact I |]. constructor; [exact I | constructor].
      * constructor; [exact I | constructor].
    + constructor; [exact I |]. constructor; [| constructor].
      split; [apply failed_text_nonempty |].
      right. split; [reflexivity | now exists (errorMsg_of e)].
    + constructor.
    + constructor; [exact I | constructor].
    + constructor.
    + apply Forall_repeat_OnClose. exact I.
Qed.

(** X11.  Every toast of every execution is one of two: the
    informational one, whose text is the translation of the not-ready key
    or, when that is empty, the built-in English sentence; or an error
    one, made of the translated failure label, a colon and the text of
    what was thrown.  Neither is ever empty, whatever the translations
    are. *)
Theorem toasts_are_never_empty env w :
  reachable env w -> Forall (known_toast env) (log w).
Proof.
  intros [evs Hrun].
  apply (known_toasts_run_from env evs mount w Inv_mount Hrun).
  repeat constructor.
Qed.

Lemma toasts_are_never_empty_witness :
  exists w,
    run (mkEnv true (fun _ => ""))
        [ECheckSettled (Rejected (NonError "")); EClickRetry;
         ECheckSettled (Fulfilled info_newer)] = Some w /\
    filter is_ShowToast (log w)
    = [ShowToast ": " error_kind; ShowToast "Auto-update is disabled" info] /\
    Forall (known_toast (mkEnv true (fun _ => ""))) (log w).
Proof.
  eexists. split; [vm_compute; reflexivity |].
  split; [reflexivity |].
  apply (toasts_are_never_empty (mkEnv true (fun _ => ""))).
  exists [ECheckSettled (Rejected (NonError "")); EClickRetry;
          ECheckSettled (Fulfilled info_newer)].
  vm_compute. reflexivity.
Defined.

(** ** After an answer *)




